(** * Teuchos standard conditions and the dependency XML converter

    A shallow embedding of [Teuchos_StandardConditions.hpp] and of
    [DependencyXMLConverter::fromXMLtoDependency], together with the
    properties the specification states about them. *)

From Stdlib Require Import ZArith List Bool String Lia.
From Stdlib Require Import Floats.PrimFloat Floats.SpecFloat.
From Stdlib Require Import Floats.FloatOps Floats.FloatAxioms.
From stdpp Require Import base decidable countable gmap strings.

Local Open Scope Z_scope.

(* stdpp's solvers clear hypotheses that may be gone already. *)
#[local] Set Warnings "-clear-no-such-hyp".

(** ** Exceptions

    A C++ function that may throw is a computation in an error monad: it
    yields [inl e] when it throws [e] and [inr v] when it returns [v]. *)

Inductive exception : Type :=
| InvalidConditionException
| MissingDependeesException
| MissingDependentsException
| bad_any_cast
| out_of_range.

Definition M (A : Type) : Type := (exception + A)%type.

Definition ret {A : Type} (a : A) : M A := inr a.
Definition throw {A : Type} (e : exception) : M A := inl e.
Definition bind {A B : Type} (m : M A) (k : A -> M B) : M B :=
  match m with
  | inl e => inl e
  | inr a => k a
  end.

Notation "'let!' x ':=' m 'in' k" := (bind m (fun x => k))
  (at level 10, x name, m at level 100, k at level 200).

Definition succeeds {A : Type} (m : M A) : Prop := exists a, m = inr a.

(** ** Parameter entries

    A [ParameterEntry] holds a dynamically typed value (a [Teuchos::any]).
    The types the conditions care about are listed; [t_other] stands for
    every other type (lists, sublists, ...). *)

Inductive TypeName : Type :=
| t_int | t_short | t_double | t_float | t_bool | t_string | t_other.

#[global] Instance TypeName_eq_dec : EqDecision TypeName.
Proof. solve_decision. Defined.

(** [int] and [short] are two's-complement integers kept as [Z] within their
    range; [double] is IEEE binary64; a [float] is kept as the binary64 number
    of the same value; a [std::string] is a [string]. *)
Definition carrier (t : TypeName) : Type :=
  match t with
  | t_int | t_short => Z
  | t_double | t_float => float
  | t_bool => bool
  | t_string => string
  | t_other => unit
  end.

Record any : Type := mk_any { typeName : TypeName; content : carrier typeName }.

Definition ParameterEntry : Type := any.

(** Modelled from the spec: [ParameterEntry] with its [isType<T>] and
    [getValue<T>] queries is declared in [Teuchos_ParameterEntry.hpp], which is
    not among the sources.  The specification describes the entry as a
    dynamically typed value with an is-type-of-T query and a get-typed-value
    query, and a value that cannot be read at the expected type as an error:
    [getValue<T>] returns the content when the entry holds a [T] and throws
    otherwise. *)
Definition isType (T : TypeName) (e : ParameterEntry) : bool :=
  bool_decide (typeName e = T).

Definition getValue (T : TypeName) (e : ParameterEntry) : M (carrier T) :=
  match decide (typeName e = T) with
  | left h => ret (eq_rect (typeName e) carrier (content e) T h)
  | right _ => throw bad_any_cast
  end.

(** An [RCP<ParameterEntry>] is a reference to an entry owned by a parameter
    list.  References are addresses; the parameter lists are the store that
    maps each address to the entry it currently holds. *)
Definition RCP : Type := positive.
Definition ParameterState : Type := RCP -> ParameterEntry.

(** ** Number types

    The instances of the template parameter [T] of [NumberCondition<T>]. *)

Inductive NumberType : Type := n_int | n_short | n_double | n_float.

Definition typeOf (T : NumberType) : TypeName :=
  match T with
  | n_int => t_int
  | n_short => t_short
  | n_double => t_double
  | n_float => t_float
  end.

Definition number (T : NumberType) : Type := carrier (typeOf T).

(** [x > 0] at type [T]. *)
Definition greaterThanZero (T : NumberType) : number T -> bool :=
  match T as T0 return number T0 -> bool with
  | n_int | n_short => fun x => 0 <? x
  | n_double | n_float => fun x => PrimFloat.ltb PrimFloat.zero x
  end.

(** Two's-complement wrap-around of a [w]-bit signed integer. *)
Definition wrap (w : Z) (z : Z) : Z :=
  (z + 2 ^ (w - 1)) mod 2 ^ w - 2 ^ (w - 1).

Definition INT_MIN : Z := - 2 ^ 31.

(** ** Conditions

    The class hierarchy under [Condition] as a tagged union.  The three
    subclasses of [BinaryLogicalCondition] differ in [applyOperator] only; the
    three subclasses of [ParameterCondition] differ in [evaluateParameter] and
    share the members [parameterEntry_] and [whenParamEqualsValue_]. *)

Inductive BinaryLogicalOperator : Type := Or | And | Equals.

Inductive ParameterConditionKind : Type :=
| StringKind (values_ : list string)
| NumberKind (T : NumberType) (func_ : option (number T -> number T))
| BoolKind.

Record ParameterCondition : Type := mkParameterCondition {
  parameterEntry_ : RCP;
  whenParamEqualsValue_ : bool;
  kind : ParameterConditionKind
}.

#[warnings="-register-all"] Inductive Condition : Type :=
| CBinaryLogical (op : BinaryLogicalOperator) (conditions_ : list Condition)
| CNot (childCondition_ : Condition)
| CParameter (pc : ParameterCondition).

Definition CString (parameter : RCP) (values : list string)
    (whenParamEqualsValue : bool) : Condition :=
  CParameter (mkParameterCondition parameter whenParamEqualsValue
                (StringKind values)).

Definition CNumber (T : NumberType) (parameter : RCP)
    (func : option (number T -> number T)) (whenParamEqualsValue : bool)
    : Condition :=
  CParameter (mkParameterCondition parameter whenParamEqualsValue
                (NumberKind T func)).

Definition CBool (parameter : RCP) (whenParamEqualsValue : bool) : Condition :=
  CParameter (mkParameterCondition parameter whenParamEqualsValue BoolKind).

(** Structural induction through the child lists. *)
Section Condition_ind.
Variable P : Condition -> Prop.
Hypothesis HBinary : forall op cs, Forall P cs -> P (CBinaryLogical op cs).
Hypothesis HNot : forall c, P c -> P (CNot c).
Hypothesis HParameter : forall pc, P (CParameter pc).

Fixpoint Condition_nested_ind (c : Condition) : P c :=
  match c with
  | CBinaryLogical op cs =>
      HBinary op cs
        ((fix all (l : list Condition) : Forall P l :=
            match l with
            | nil => @List.Forall_nil _ P
            | x :: l' =>
                @List.Forall_cons _ P x l' (Condition_nested_ind x) (all l')
            end) cs)
  | CNot c' => HNot c' (Condition_nested_ind c')
  | CParameter pc => HParameter pc
  end.
End Condition_ind.

(** *** NumberCondition<T> *)

Definition runFunction {T : NumberType}
    (func_ : option (number T -> number T)) (argument : number T) : number T :=
  match func_ with
  | Some f => f argument
  | None => argument
  end.

Definition NumberCondition_evaluateParameter (T : NumberType)
    (func_ : option (number T -> number T))
    (st : ParameterState) (parameterEntry_ : RCP) : M bool :=
  let! v := getValue (typeOf T) (st parameterEntry_) in
  ret (greaterThanZero T (runFunction func_ v)).

(** [checkForNumberType] is a member of [NumberCondition<T>]; its body makes
    no use of [T]. *)
Definition checkForNumberType (T : NumberType)
    (st : ParameterState) (parameterEntry_ : RCP) : M unit :=
  let toCheck := st parameterEntry_ in
  if negb (isType t_int toCheck) && negb (isType t_short toCheck)
     && negb (isType t_double toCheck) && negb (isType t_float toCheck)
  then throw InvalidConditionException
  else ret tt.

(** The declared types [checkForNumberType] accepts. *)
Definition supportedNumberType (t : TypeName) : Prop :=
  t = t_int \/ t = t_short \/ t = t_double \/ t = t_float.

(** The constructor [NumberCondition<T>::NumberCondition]: the base class
    constructor stores the reference and the flag, [func_] is initialised, and
    the body calls [checkForNumberType]. *)
Definition NumberCondition (T : NumberType) (st : ParameterState)
    (parameter : RCP) (func : option (number T -> number T))
    (whenParamEqualsValue : bool) : M Condition :=
  let! _checked := checkForNumberType T st parameter in
  ret (CNumber T parameter func whenParamEqualsValue).

(** *** StringCondition and BoolCondition *)

(** Modelled from the spec: [StringCondition::evaluateParameter] is defined in
    [Teuchos_StandardConditions.cpp], which is not among the sources.  It is
    true iff the current string value of the parameter is a member of the
    value list, by exact match. *)
Definition StringCondition_evaluateParameter (values_ : list string)
    (st : ParameterState) (parameterEntry_ : RCP) : M bool :=
  let! s := getValue t_string (st parameterEntry_) in
  ret (existsb (String.eqb s) values_).

(** Modelled from the spec: [BoolCondition::evaluateParameter] is defined in
    [Teuchos_StandardConditions.cpp], which is not among the sources.  It
    returns the current boolean value of the parameter. *)
Definition BoolCondition_evaluateParameter
    (st : ParameterState) (parameterEntry_ : RCP) : M bool :=
  getValue t_bool (st parameterEntry_).

(** *** ParameterCondition *)

(** The virtual call [evaluateParameter()]. *)
Definition evaluateParameter (st : ParameterState) (pc : ParameterCondition)
    : M bool :=
  match kind pc with
  | StringKind values =>
      StringCondition_evaluateParameter values st (parameterEntry_ pc)
  | NumberKind T func =>
      NumberCondition_evaluateParameter T func st (parameterEntry_ pc)
  | BoolKind => BoolCondition_evaluateParameter st (parameterEntry_ pc)
  end.

(** [ParameterCondition::isConditionTrue].  [&&] and [||] short-circuit, so
    [evaluateParameter()] is called in the first conjunction when the flag is
    set and in the second one otherwise. *)
Definition ParameterCondition_isConditionTrue
    (st : ParameterState) (pc : ParameterCondition) : M bool :=
  let! first :=
    (if whenParamEqualsValue_ pc then evaluateParameter st pc
     else ret false) in
  if first then ret true
  else
    let! second :=
      (if negb (whenParamEqualsValue_ pc) then evaluateParameter st pc
       else ret false) in
    if second then ret true else ret false.

(** What the documentation of the constructor of [ParameterCondition]
    describes, in the words of the specification:
    [evaluateParameter() == whenParamEqualsValue]. *)
Definition documented_isConditionTrue
    (st : ParameterState) (pc : ParameterCondition) : M bool :=
  let! e := evaluateParameter st pc in
  ret (eqb e (whenParamEqualsValue_ pc)).

(** *** BinaryLogicalCondition *)

(** Modelled from the spec: the three [applyOperator] overrides are defined in
    [Teuchos_StandardConditions.cpp], which is not among the sources:
    [op1 || op2] for Or, [op1 && op2] for And, [op1 == op2] for Equals. *)
Definition applyOperator (op : BinaryLogicalOperator) (op1 op2 : bool) : bool :=
  match op with
  | Or => op1 || op2
  | And => op1 && op2
  | Equals => eqb op1 op2
  end.

(** Modelled from the spec: the constructor of [BinaryLogicalCondition] is
    defined in [Teuchos_StandardConditions.cpp], which is not among the
    sources.  Construction fails when the child list is empty. *)
Definition BinaryLogicalCondition (op : BinaryLogicalOperator)
    (conditions : list Condition) : M Condition :=
  match conditions with
  | [] => throw InvalidConditionException
  | _ :: _ => ret (CBinaryLogical op conditions)
  end.

Definition OrCondition : list Condition -> M Condition :=
  BinaryLogicalCondition Or.
Definition AndCondition : list Condition -> M Condition :=
  BinaryLogicalCondition And.
Definition EqualsCondition : list Condition -> M Condition :=
  BinaryLogicalCondition Equals.

(** Modelled from the spec: [BinaryLogicalCondition::isConditionTrue] is
    defined in [Teuchos_StandardConditions.cpp], which is not among the
    sources.  [acc = children[0].isConditionTrue()], then for each subsequent
    child [c], [acc = applyOperator(acc, c.isConditionTrue())].  The loop is
    written over the virtual [applyOperator] and over the outcomes of the
    children's [isConditionTrue()], in order.  An empty list has no
    [children[0]]. *)
Fixpoint reduce (applyOperator : bool -> bool -> bool) (acc : bool)
    (rest : list (M bool)) : M bool :=
  match rest with
  | [] => ret acc
  | c :: rest' =>
      let! v := c in reduce applyOperator (applyOperator acc v) rest'
  end.

Definition BinaryLogicalCondition_isConditionTrue
    (applyOperator : bool -> bool -> bool) (children : list (M bool))
    : M bool :=
  match children with
  | [] => throw out_of_range
  | first :: rest => let! acc := first in reduce applyOperator acc rest
  end.

(** *** The virtual [Condition::isConditionTrue] *)

(** Modelled from the spec for [NotCondition::isConditionTrue], which is
    defined in [Teuchos_StandardConditions.cpp]: the negation of the child's
    result. *)
Fixpoint isConditionTrue (st : ParameterState) (c : Condition) : M bool :=
  match c with
  | CBinaryLogical op conditions =>
      BinaryLogicalCondition_isConditionTrue (applyOperator op)
        (List.map (isConditionTrue st) conditions)
  | CNot child => let! v := isConditionTrue st child in ret (negb v)
  | CParameter pc => ParameterCondition_isConditionTrue st pc
  end.

(** *** getAllParameters *)

(** Modelled from the spec: the [getAllParameters] overrides are defined in
    [Teuchos_StandardConditions.cpp], which is not among the sources.  A
    [ParameterCondition] returns the singleton set of its parameter; a
    [BinaryLogicalCondition] returns the union over its children; a
    [NotCondition] returns the parameters of its child.  The result is a set of
    references, so an entry occurs in it once. *)
Fixpoint getAllParameters (c : Condition) : gset RCP :=
  match c with
  | CBinaryLogical _ conditions =>
      union_list (List.map getAllParameters conditions)
  | CNot child => getAllParameters child
  | CParameter pc => {[ parameterEntry_ pc ]}
  end.

(** The parameters reachable through the structure of a condition. *)
Inductive refersTo : Condition -> RCP -> Prop :=
| refersTo_parameter pc : refersTo (CParameter pc) (parameterEntry_ pc)
| refersTo_not child p : refersTo child p -> refersTo (CNot child) p
| refersTo_child op conditions child p :
    In child conditions -> refersTo child p ->
    refersTo (CBinaryLogical op conditions) p.

(** ** XML objects and the dependency converter *)

(** Modelled from the spec: [XMLObject] is declared in [Teuchos_XMLObject.hpp],
    which is not among the sources.  A fragment has a tag, attributes and an
    ordered list of child fragments; [findFirstChild] gives the first child
    that bears a tag, or null when no child does; [getAttribute] gives the
    value recorded under a name (the empty string stands for an absent
    one). *)
#[warnings="-register-all"] Inductive XMLObject : Type :=
| mkXMLObject (tag : string) (attributes : list (string * string))
    (children : list XMLObject).

Definition getTag (x : XMLObject) : string :=
  match x with mkXMLObject tag _ _ => tag end.

Definition getAttributes (x : XMLObject) : list (string * string) :=
  match x with mkXMLObject _ attributes _ => attributes end.

Definition getChildren (x : XMLObject) : list XMLObject :=
  match x with mkXMLObject _ _ children => children end.

Definition numChildren (x : XMLObject) : nat := length (getChildren x).

Definition getChild (x : XMLObject) (i : nat) : option XMLObject :=
  nth_error (getChildren x) i.

Definition findFirstChild (x : XMLObject) (tagName : string)
    : option XMLObject :=
  List.find (fun child => String.eqb (getTag child) tagName) (getChildren x).

Fixpoint lookupAttribute (attributes : list (string * string)) (name : string)
    : option string :=
  match attributes with
  | [] => None
  | (n, v) :: rest =>
      if String.eqb n name then Some v else lookupAttribute rest name
  end.

Definition getAttribute (x : XMLObject) (name : string) : string :=
  match lookupAttribute (getAttributes x) name with
  | Some v => v
  | None => EmptyString
  end.

Module DependencyXMLConverter.
Section Converter.

(** What a concrete converter and the surrounding classes provide: the tag
    and attribute names, the registry [ParameterEntry::getParameterEntry]
    from parameter IDs to entries, and the pure virtual [convertXML]. *)
Variable Dependency : Type.
Variable getDependeeTagName : string.
Variable getDependentTagName : string.
Variable getParameterIDAttributeName : string.
Variable getParameterEntry : string -> RCP.
Variable convertXML : XMLObject -> gset RCP -> gset RCP -> Dependency.

(** The body of the loop over the children: the pair is
    [(dependees, dependents)]. *)
Definition visitChild (sets : gset RCP * gset RCP) (child : XMLObject)
    : gset RCP * gset RCP :=
  let (dependees, dependents) := sets in
  if String.eqb (getTag child) getDependeeTagName then
    let dependeeID := getAttribute child getParameterIDAttributeName in
    ({[ getParameterEntry dependeeID ]} ∪ dependees, dependents)
  else if String.eqb (getTag child) getDependentTagName then
    let dependentID := getAttribute child getParameterIDAttributeName in
    (dependees, {[ getParameterEntry dependentID ]} ∪ dependents)
  else (dependees, dependents).

(** The loop [for (i = 0; i < numChildren(); ++i)] over [getChild(i)]. *)
Definition collectParameters (xmlObj : XMLObject) : gset RCP * gset RCP :=
  fold_left
    (fun sets i =>
       match getChild xmlObj i with
       | Some child => visitChild sets child
       | None => sets
       end)
    (seq 0 (numChildren xmlObj)) (∅, ∅).

Definition fromXMLtoDependency (xmlObj : XMLObject) : M Dependency :=
  match findFirstChild xmlObj getDependeeTagName with
  | None => throw MissingDependeesException
  | Some _ =>
      match findFirstChild xmlObj getDependentTagName with
      | None => throw MissingDependentsException
      | Some _ =>
          let (dependees, dependents) := collectParameters xmlObj in
          ret (convertXML xmlObj dependees dependents)
      end
  end.

(** The fragment has a child that bears the tag. *)
Definition hasChildTagged (xmlObj : XMLObject) (tagName : string) : Prop :=
  exists child, In child (getChildren xmlObj) /\ getTag child = tagName.

(** The entries named by the children that bear the tag. *)
Definition namedBy (xmlObj : XMLObject) (tagName : string) (e : RCP) : Prop :=
  exists child,
    In child (getChildren xmlObj) /\ getTag child = tagName
    /\ e = getParameterEntry (getAttribute child getParameterIDAttributeName).

End Converter.
End DependencyXMLConverter.

(** ** Example inputs *)

(** A state in which every parameter holds the boolean [false]. *)
Definition state_bool_false : ParameterState := fun _ => mk_any t_bool false.

(** The transform [f(x) = x - 5] on [int]. *)
Definition minus_five : number n_int -> number n_int :=
  fun x => wrap 32 (x - 5).

(** The same transform on [double]. *)
Definition minus_five_double : number n_double -> number n_double :=
  fun x => (x - 5)%float.





(** A state in which every parameter holds the [int] 7. *)
Definition state_int_7 : ParameterState := fun _ => mk_any t_int 7.

(** A state in which every parameter holds the [double] 1.5. *)
Definition state_double : ParameterState := fun _ => mk_any t_double 1.5%float.

(** A state in which parameter 1 holds [true] and every other one [false]. *)
Definition state_flags : ParameterState :=
  fun p => mk_any t_bool (Pos.eqb p 1).

(** A registry that resolves the IDs [p1] and [p2]. *)
Definition exampleRegistry (id : string) : RCP :=
  if String.eqb id "p1" then 1%positive
  else if String.eqb id "p2" then 2%positive
  else 3%positive.

(** A converter that returns the two sets it is given. *)
Definition examplePair (_ : XMLObject) (dependees dependents : gset RCP)
    : gset RCP * gset RCP :=
  (dependees, dependents).

(** A dependency fragment with one dependee and one dependent. *)
Definition exampleDependency : XMLObject :=
  mkXMLObject "Dependency" [("type", "example")]
    [mkXMLObject "Dependee" [("parameterId", "p1")] [];
     mkXMLObject "Dependent" [("parameterId", "p2")] []].

(** A dependency fragment without children. *)
Definition emptyDependency : XMLObject :=
  mkXMLObject "Dependency" [("type", "example")] [].

(** ** Type attributes *)

(** The concrete class of a condition. *)
Inductive ConditionClass : Type :=
| class_Or | class_And | class_Equals | class_Not
| class_String | class_Number (T : NumberType) | class_Bool.

Definition classOf (c : Condition) : ConditionClass :=
  match c with
  | CBinaryLogical Or _ => class_Or
  | CBinaryLogical And _ => class_And
  | CBinaryLogical Equals _ => class_Equals
  | CNot _ => class_Not
  | CParameter pc =>
      match kind pc with
      | StringKind _ => class_String
      | NumberKind T _ => class_Number T
      | BoolKind => class_Bool
      end
  end.

Section TypeAttribute.

(** [TypeNameTraits<T>::name()], declared in [Teuchos_TypeNameTraits.hpp]. *)
Variable TypeNameTraits_name : NumberType -> string.

(** The virtual [getTypeAttributeValue()], as each class overrides it. *)
Definition getTypeAttributeValue (c : Condition) : string :=
  match c with
  | CBinaryLogical Or _ => "orCondition"
  | CBinaryLogical And _ => "andCondition"
  | CBinaryLogical Equals _ => "equalsCondition"
  | CNot _ => "notCondition"
  | CParameter pc =>
      match kind pc with
      | StringKind _ => "stringCondition"
      | NumberKind T _ => TypeNameTraits_name T ++ "NumberCondition"
      | BoolKind => "boolCondition"
      end
  end.

End TypeAttribute.

(** The names of the four number types, for the examples. *)
Definition exampleTypeName (T : NumberType) : string :=
  match T with
  | n_int => "int"
  | n_short => "short"
  | n_double => "double"
  | n_float => "float"
  end.

(** ** The calls of [evaluateParameter()]

    [ParameterCondition::isConditionTrue] once more, over any way to sequence
    effects: [evaluateParameter] is the virtual call, with whatever effects it
    has. *)
Section Effects.

Variable m : Type -> Type.
Variable unit_ : forall A : Type, A -> m A.
Variable bind_ : forall A B : Type, m A -> (A -> m B) -> m B.

Definition ParameterCondition_isConditionTrue_in
    (whenParamEqualsValue_ : bool) (evaluateParameter : m bool) : m bool :=
  bind_ bool bool
    (if whenParamEqualsValue_ then evaluateParameter else unit_ bool false)
    (fun first =>
       if first then unit_ bool true
       else
         bind_ bool bool
           (if negb whenParamEqualsValue_ then evaluateParameter
            else unit_ bool false)
           (fun second =>
              if second then unit_ bool true else unit_ bool false)).

End Effects.

(** Computations that count the calls made so far and may throw. *)
Definition Counted (A : Type) : Type := nat -> nat * M A.

Definition counted_ret (A : Type) (a : A) : Counted A := fun n => (n, inr a).

Definition counted_bind (A B : Type) (c : Counted A) (k : A -> Counted B)
    : Counted B :=
  fun n =>
    match c n with
    | (n', inl e) => (n', inl e)
    | (n', inr a) => k a n'
    end.

(** One call of [evaluateParameter()] with the given outcome. *)
Definition counted_call (outcome : M bool) : Counted bool :=
  fun n => (S n, outcome).

(** ** Fragments with the same tagged children *)

(** A child bears one of the two tags the reader looks for. *)
Definition tagged (dependeeTag dependentTag : string) (child : XMLObject)
    : Prop :=
  getTag child = dependeeTag \/ getTag child = dependentTag.

(** The fragment [exampleDependency] with its children in another order, one
    of them twice, and a child with another tag among them. *)
Definition exampleShuffled : XMLObject :=
  mkXMLObject "Dependency" []
    [mkXMLObject "Dependent" [("parameterId", "p2")] [];
     mkXMLObject "Note" [] [];
     mkXMLObject "Dependee" [("parameterId", "p1")] [];
     mkXMLObject "Dependent" [("parameterId", "p2")] []].

(** ** The Thyra adapter of an EpetraExt model evaluator

    [Thyra_EpetraModelEvaluator.cpp].  [TEST_FOR_EXCEPT(c)] throws
    [std::logic_error] when [c] holds.  A [RefCountPtr] is a shared reference
    that may be null. *)

Module Thyra.

Inductive exception : Type := logic_error.

Definition R (A : Type) : Type := (exception + A)%type.

Definition RefCountPtr (A : Type) : Type := option A.

(** The enumerations of [EpetraExt::ModelEvaluator].  An object of an
    enumeration type may hold a value that is none of the enumerators, which is
    what the [default:] branches are for: [unnamed] stands for such a value. *)
Module EME.

Inductive EDerivativeMultiVectorOrientation : Type :=
| DERIV_MV_BY_COL
| DERIV_TRANS_MV_BY_ROW
| unnamed_orientation (value : Z).

Inductive EDerivativeLinearity : Type :=
| DERIV_LINEARITY_UNKNOWN
| DERIV_LINEARITY_CONST
| DERIV_LINEARITY_NONCONST
| unnamed_linearity (value : Z).

Inductive ERankStatus : Type :=
| DERIV_RANK_UNKNOWN
| DERIV_RANK_FULL
| DERIV_RANK_DEFICIENT
| unnamed_rank (value : Z).

Record DerivativeProperties : Type := mkDerivativeProperties {
  linearity : EDerivativeLinearity;
  rank : ERankStatus;
  supportsAdjoint : bool
}.

End EME.

(** The enumerations of [Thyra::ModelEvaluatorBase]. *)
Module MEB.

Inductive EDerivativeMultiVectorOrientation : Type :=
| DERIV_MV_BY_COL
| DERIV_TRANS_MV_BY_ROW
| unnamed_orientation (value : Z).

Inductive EDerivativeLinearity : Type :=
| DERIV_LINEARITY_UNKNOWN
| DERIV_LINEARITY_CONST
| DERIV_LINEARITY_NONCONST
| unnamed_linearity (value : Z).

Inductive ERankStatus : Type :=
| DERIV_RANK_UNKNOWN
| DERIV_RANK_FULL
| DERIV_RANK_DEFICIENT
| unnamed_rank (value : Z).

Record DerivativeProperties : Type := mkDerivativeProperties {
  linearity : EDerivativeLinearity;
  rank : ERankStatus;
  supportsAdjoint : bool
}.

End MEB.

(** [Thyra::convert] from the orientation of EpetraExt to the one of Thyra. *)
Definition convert_orientation_to_Thyra
    (mvOrientation : EME.EDerivativeMultiVectorOrientation)
    : R MEB.EDerivativeMultiVectorOrientation :=
  match mvOrientation with
  | EME.DERIV_MV_BY_COL => inr MEB.DERIV_MV_BY_COL
  | EME.DERIV_TRANS_MV_BY_ROW => inr MEB.DERIV_TRANS_MV_BY_ROW
  | EME.unnamed_orientation _ => inl logic_error
  end.

(** [Thyra::convert] from the orientation of Thyra to the one of EpetraExt. *)
Definition convert_orientation_to_Epetra
    (mvOrientation : MEB.EDerivativeMultiVectorOrientation)
    : R EME.EDerivativeMultiVectorOrientation :=
  match mvOrientation with
  | MEB.DERIV_MV_BY_COL => inr EME.DERIV_MV_BY_COL
  | MEB.DERIV_TRANS_MV_BY_ROW => inr EME.DERIV_TRANS_MV_BY_ROW
  | MEB.unnamed_orientation _ => inl logic_error
  end.

(** [Thyra::convert] of derivative properties: the two [switch] statements
    one after the other, then the constructor. *)
Definition convert_DerivativeProperties
    (derivativeProperties : EME.DerivativeProperties)
    : R MEB.DerivativeProperties :=
  match
    match EME.linearity derivativeProperties with
    | EME.DERIV_LINEARITY_UNKNOWN => inr MEB.DERIV_LINEARITY_UNKNOWN
    | EME.DERIV_LINEARITY_CONST => inr MEB.DERIV_LINEARITY_CONST
    | EME.DERIV_LINEARITY_NONCONST => inr MEB.DERIV_LINEARITY_NONCONST
    | EME.unnamed_linearity _ => inl logic_error
    end
  with
  | inl e => inl e
  | inr linearity =>
      match
        match EME.rank derivativeProperties with
        | EME.DERIV_RANK_UNKNOWN => inr MEB.DERIV_RANK_UNKNOWN
        | EME.DERIV_RANK_FULL => inr MEB.DERIV_RANK_FULL
        | EME.DERIV_RANK_DEFICIENT => inr MEB.DERIV_RANK_DEFICIENT
        | EME.unnamed_rank _ => inl logic_error
        end
      with
      | inl e => inl e
      | inr rank =>
          inr (MEB.mkDerivativeProperties linearity rank
                 (EME.supportsAdjoint derivativeProperties))
      end
  end.

Section Evaluator.

(** The classes the adapter works with, and what it calls of them: the maps
    and the argument counts of the EpetraExt model ([createInArgs().Np()],
    [createOutArgs().Ng()], counts that are not negative),
    [create_MPIVectorSpaceBase], and [setOStream] and [createOp] of the
    factory. *)
Variable Epetra_Map : Type.
Variable VectorSpaceBase : Type.
Variable EpetraExt_ModelEvaluator : Type.
Variable LinearOpWithSolveFactoryBase : Type.
Variable LinearOpWithSolveBase : Type.
Variable FancyOStream : Type.
Variable get_x_map : EpetraExt_ModelEvaluator -> RefCountPtr Epetra_Map.
Variable get_f_map : EpetraExt_ModelEvaluator -> RefCountPtr Epetra_Map.
Variable get_p_map : EpetraExt_ModelEvaluator -> Z -> RefCountPtr Epetra_Map.
Variable get_g_map : EpetraExt_ModelEvaluator -> Z -> RefCountPtr Epetra_Map.
Variable InArgs_Np : EpetraExt_ModelEvaluator -> nat.
Variable OutArgs_Ng : EpetraExt_ModelEvaluator -> nat.
Variable create_MPIVectorSpaceBase :
  RefCountPtr Epetra_Map -> RefCountPtr VectorSpaceBase.
Variable setOStream :
  LinearOpWithSolveFactoryBase -> RefCountPtr FancyOStream ->
  LinearOpWithSolveFactoryBase.
Variable createOp :
  LinearOpWithSolveFactoryBase -> RefCountPtr LinearOpWithSolveBase.

(** The members of [EpetraModelEvaluator]; [ostream_] is the stream that
    [getOStream()] of the base class returns. *)
Record EpetraModelEvaluator : Type := mkEpetraModelEvaluator {
  epetraModel_ : RefCountPtr EpetraExt_ModelEvaluator;
  W_factory_ : RefCountPtr LinearOpWithSolveFactoryBase;
  x_map_ : RefCountPtr Epetra_Map;
  p_map_ : list (RefCountPtr Epetra_Map);
  g_map_ : list (RefCountPtr Epetra_Map);
  f_map_ : RefCountPtr Epetra_Map;
  x_space_ : RefCountPtr VectorSpaceBase;
  p_space_ : list (RefCountPtr VectorSpaceBase);
  f_space_ : RefCountPtr VectorSpaceBase;
  g_space_ : list (RefCountPtr VectorSpaceBase);
  ostream_ : RefCountPtr FancyOStream
}.

(** The default constructor. *)
Definition EpetraModelEvaluator_new (ostream : RefCountPtr FancyOStream)
    : EpetraModelEvaluator :=
  mkEpetraModelEvaluator None None None [] [] None None [] None [] ostream.

(** [initialize]; it dereferences [epetraModel], which is the model itself
    here.  The two loops fill [p_map_], [p_space_] and [g_map_], [g_space_]
    index by index after the [resize]. *)
Definition initialize (this : EpetraModelEvaluator)
    (epetraModel : EpetraExt_ModelEvaluator)
    (W_factory : RefCountPtr LinearOpWithSolveFactoryBase)
    : EpetraModelEvaluator :=
  let x_map := get_x_map epetraModel in
  let f_map := get_f_map epetraModel in
  let p_map :=
    List.map (fun l => get_p_map epetraModel (Z.of_nat l))
      (seq 0 (InArgs_Np epetraModel)) in
  let g_map :=
    List.map (fun j => get_g_map epetraModel (Z.of_nat j))
      (seq 0 (OutArgs_Ng epetraModel)) in
  mkEpetraModelEvaluator (Some epetraModel) W_factory
    x_map p_map g_map f_map
    (create_MPIVectorSpaceBase x_map)
    (List.map create_MPIVectorSpaceBase p_map)
    (create_MPIVectorSpaceBase f_map)
    (List.map create_MPIVectorSpaceBase g_map)
    (ostream_ this).

Definition getEpetraModel (this : EpetraModelEvaluator)
    : RefCountPtr EpetraExt_ModelEvaluator :=
  epetraModel_ this.

(** [uninitialize].  Each of the two arguments is a pointer to a place for a
    reference, or null: [None] is the null pointer, and the result holds what
    the places hold afterwards.  The last statement tests [W_factory_] after it
    has been set to null. *)
Definition uninitialize (this : EpetraModelEvaluator)
    (epetraModel : option (RefCountPtr EpetraExt_ModelEvaluator))
    (W_factory : option (RefCountPtr LinearOpWithSolveFactoryBase))
    : EpetraModelEvaluator
      * option (RefCountPtr EpetraExt_ModelEvaluator)
      * option (RefCountPtr LinearOpWithSolveFactoryBase) :=
  let epetraModel' :=
    match epetraModel with
    | Some _ => Some (epetraModel_ this)
    | None => None
    end in
  let W_factory' :=
    match W_factory with
    | Some _ => Some (W_factory_ this)
    | None => None
    end in
  let this1 :=
    mkEpetraModelEvaluator None None
      (x_map_ this) (p_map_ this) (g_map_ this) (f_map_ this)
      (x_space_ this) (p_space_ this) (f_space_ this) (g_space_ this)
      (ostream_ this) in
  let this2 :=
    match W_factory_ this1 with
    | Some factory =>
        mkEpetraModelEvaluator (epetraModel_ this1)
          (Some (setOStream factory (ostream_ this1)))
          (x_map_ this1) (p_map_ this1) (g_map_ this1) (f_map_ this1)
          (x_space_ this1) (p_space_ this1) (f_space_ this1) (g_space_ this1)
          (ostream_ this1)
    | None => this1
    end in
  (this2, epetraModel', W_factory').

Definition Np (this : EpetraModelEvaluator) : Z :=
  Z.of_nat (length (p_space_ this)).

Definition Ng (this : EpetraModelEvaluator) : Z :=
  Z.of_nat (length (g_space_ this)).

Definition get_p_space (this : EpetraModelEvaluator) (l : Z)
    : R (RefCountPtr VectorSpaceBase) :=
  if negb ((0 <=? l) && (l <? Np this)) then inl logic_error
  else inr (nth (Z.to_nat l) (p_space_ this) None).

Definition get_g_space (this : EpetraModelEvaluator) (j : Z)
    : R (RefCountPtr VectorSpaceBase) :=
  if negb ((0 <=? j) && (j <? Ng this)) then inl logic_error
  else inr (nth (Z.to_nat j) (g_space_ this) None).

(** [create_W]: the factory is shared, so the stream it is given stays set;
    the result holds the evaluator with the factory as it is afterwards, and
    the operator created. *)
Definition create_W (this : EpetraModelEvaluator)
    : R (EpetraModelEvaluator * RefCountPtr LinearOpWithSolveBase) :=
  match W_factory_ this with
  | None => inl logic_error
  | Some factory =>
      let factory' := setOStream factory (ostream_ this) in
      inr (mkEpetraModelEvaluator (epetraModel_ this) (Some factory')
             (x_map_ this) (p_map_ this) (g_map_ this) (f_map_ this)
             (x_space_ this) (p_space_ this) (f_space_ this) (g_space_ this)
             (ostream_ this),
           createOp factory')
  end.

End Evaluator.

End Thyra.

(** * Properties *)

(** ** Parameter entries *)

Lemma getValue_mk_any (T : TypeName) (v : carrier T) :
  getValue T (mk_any T v) = inr v.
Proof.
  unfold getValue. simpl.
  destruct (decide (T = T)) as [h | n].
  - rewrite (proof_irrel h eq_refl). reflexivity.
  - contradiction n. reflexivity.
Qed.

Lemma getValue_inr (T : TypeName) (e : ParameterEntry) (v : carrier T) :
  getValue T e = inr v <-> e = mk_any T v.
Proof.
  split.
  - unfold getValue. destruct e as [t c]. simpl.
    destruct (decide (t = T)) as [h | n]; [| discriminate].
    subst t. simpl. intros H. injection H as ->. reflexivity.
  - intros ->. apply getValue_mk_any.
Qed.

Lemma getValue_inl (T : TypeName) (e : ParameterEntry) :
  typeName e <> T -> getValue T e = inl bad_any_cast.
Proof.
  intros n. unfold getValue.
  destruct (decide (typeName e = T)) as [h | _]; [contradiction | reflexivity].
Qed.

Lemma checkForNumberType_ok (T : NumberType) (st : ParameterState) (p : RCP) :
  checkForNumberType T st p = inr tt <-> supportedNumberType (typeName (st p)).
Proof.
  unfold checkForNumberType, supportedNumberType, isType.
  destruct (typeName (st p)); simpl; split; intros H;
    try reflexivity; try discriminate H; auto;
    destruct H as [H | [H | [H | H]]]; discriminate H.
Qed.

Lemma checkForNumberType_throw (T : NumberType) (st : ParameterState) (p : RCP) :
  checkForNumberType T st p = inl InvalidConditionException
  <-> ~ supportedNumberType (typeName (st p)).
Proof.
  unfold checkForNumberType, supportedNumberType, isType.
  destruct (typeName (st p)); simpl; split; intros H;
    try reflexivity; try discriminate H;
    try (intros [K | [K | [K | K]]]; discriminate K);
    exfalso; apply H; auto.
Qed.

(** ** ParameterCondition *)

Lemma ParameterCondition_isConditionTrue_evaluateParameter
    (st : ParameterState) (pc : ParameterCondition) :
  ParameterCondition_isConditionTrue st pc = evaluateParameter st pc.
Proof.
  unfold ParameterCondition_isConditionTrue.
  destruct (whenParamEqualsValue_ pc); simpl;
    destruct (evaluateParameter st pc) as [e | [|]]; reflexivity.
Qed.

(** C9: [isConditionTrue()] of a ParameterCondition returns exactly
    [evaluateParameter()], an error of the evaluation included; hence two
    ParameterConditions that differ in the [whenParamEqualsValue] flag only
    evaluate alike in every parameter state: the flag has no effect. *)
Theorem isConditionTrue_polarity_has_no_effect :
  (forall (st : ParameterState) (pc : ParameterCondition),
      isConditionTrue st (CParameter pc) = evaluateParameter st pc)
  /\ (forall (st : ParameterState) (p : RCP) (k : ParameterConditionKind),
         isConditionTrue st (CParameter (mkParameterCondition p true k))
         = isConditionTrue st (CParameter (mkParameterCondition p false k))).
Proof.
  split.
  - intros st pc. simpl.
    apply ParameterCondition_isConditionTrue_evaluateParameter.
  - intros st p k. simpl.
    rewrite !ParameterCondition_isConditionTrue_evaluateParameter.
    reflexivity.
Qed.

(** C1: at a BoolCondition built with [whenParamEqualsValue = false] on a
    parameter that holds [false], [evaluateParameter()] is false and
    [isConditionTrue()] is false as well, where the documented result,
    [evaluateParameter() == whenParamEqualsValue], is true. *)
Theorem isConditionTrue_false_polarity_not_honoured :
  let pc := mkParameterCondition 1%positive false BoolKind in
  evaluateParameter state_bool_false pc = inr false
  /\ isConditionTrue state_bool_false (CParameter pc) = inr false
  /\ documented_isConditionTrue state_bool_false pc = inr true.
Proof. repeat split. Qed.

(** ** NumberCondition<T> *)

Lemma NumberCondition_evaluateParameter_value (T : NumberType)
    (func : option (number T -> number T)) (st : ParameterState) (p : RCP)
    (v : number T) :
  getValue (typeOf T) (st p) = inr v ->
  NumberCondition_evaluateParameter T func st p
  = inr (greaterThanZero T (runFunction func v)).
Proof.
  intros H. unfold NumberCondition_evaluateParameter. rewrite H. reflexivity.
Qed.






(** ** IEEE binary64: the sign of [x - 5]

    [PrimFloat.sub] and [PrimFloat.ltb] are specified by [SFsub] and [SFltb] on
    the sign, mantissa and exponent of their arguments.  The difference is
    rounded, and rounding keeps the sign of a number that is not zero. *)



















(** ** What evaluateParameter() returns *)




(** On [double] the transform [x - 5] at a few values around 5. *)
Example NumberCondition_double_minus_five :
  let c v := isConditionTrue (fun _ => mk_any t_double v)
               (CNumber n_double 1%positive (Some minus_five_double) true) in
  c 5.5%float = inr true /\ c 5%float = inr false
  /\ c 4%float = inr false /\ c (-1)%float = inr false
  /\ c infinity = inr true /\ c nan = inr false.
Proof. repeat split. Qed.

(** Outside the range, at [INT_MIN], the wrapped difference is positive. *)
Example NumberCondition_int_minus_five_wraps :
  isConditionTrue (fun _ => mk_any t_int INT_MIN)
    (CNumber n_int 1%positive (Some minus_five) true) = inr true.
Proof. reflexivity. Qed.

Lemma NumberCondition_ok (T : NumberType) (st : ParameterState) (p : RCP)
    (func : option (number T -> number T)) (w : bool) :
  supportedNumberType (typeName (st p)) ->
  NumberCondition T st p func w = inr (CNumber T p func w).
Proof.
  intros H. unfold NumberCondition.
  apply (checkForNumberType_ok T) in H. rewrite H. reflexivity.
Qed.

Lemma NumberCondition_throw (T : NumberType) (st : ParameterState) (p : RCP)
    (func : option (number T -> number T)) (w : bool) :
  ~ supportedNumberType (typeName (st p)) ->
  NumberCondition T st p func w = inl InvalidConditionException.
Proof.
  intros H. unfold NumberCondition.
  apply (checkForNumberType_throw T) in H. rewrite H. reflexivity.
Qed.

(** C10: the constructor of NumberCondition<T> succeeds whenever the declared
    type of the parameter is one of [int], [short], [double], [float],
    whatever [T] is; the check gives the same outcome at every [T]; and
    NumberCondition<int> on a [double] parameter is constructed. *)
Theorem NumberCondition_accepts_any_number_type :
  (forall (T : NumberType) (st : ParameterState) (p : RCP)
          (func : option (number T -> number T)) (w : bool),
      supportedNumberType (typeName (st p)) ->
      NumberCondition T st p func w = inr (CNumber T p func w))
  /\ (forall (T T' : NumberType) (st : ParameterState) (p : RCP),
         checkForNumberType T st p = checkForNumberType T' st p)
  /\ (forall (p : RCP) (w : bool) (v : float),
         NumberCondition n_int (fun _ => mk_any t_double v) p None w
         = inr (CNumber n_int p None w)).
Proof.
  repeat apply conj.
  - intros T st p func w H. apply NumberCondition_ok. exact H.
  - reflexivity.
  - reflexivity.
Qed.

Lemma NumberCondition_accepts_any_number_type_witness :
  NumberCondition n_short state_double 1%positive None true
  = inr (CNumber n_short 1%positive None true).
Proof.
  apply (proj1 NumberCondition_accepts_any_number_type
           n_short state_double 1%positive None true).
  right. right. left. reflexivity.
Defined.

(** A NumberCondition<T> constructed on a parameter of another number type
    throws on evaluation. *)
Lemma NumberCondition_mismatch_throws (T : NumberType) (st : ParameterState)
    (p : RCP) (func : option (number T -> number T)) (w : bool) :
  supportedNumberType (typeName (st p)) ->
  typeName (st p) <> typeOf T ->
  exists c, NumberCondition T st p func w = inr c
            /\ isConditionTrue st c = inl bad_any_cast.
Proof.
  intros Hs Hne. exists (CNumber T p func w). split.
  - apply NumberCondition_ok. exact Hs.
  - simpl. rewrite ParameterCondition_isConditionTrue_evaluateParameter.
    unfold evaluateParameter. simpl. unfold NumberCondition_evaluateParameter.
    rewrite (getValue_inl _ _ Hne). reflexivity.
Qed.

(** C3: NumberCondition<int> on a parameter that holds the [double] 1.5 is
    constructed without an error, and [isConditionTrue()] of the constructed
    condition throws in that same parameter state. *)
Theorem isConditionTrue_throws_after_construction :
  NumberCondition n_int state_double 1%positive None true
  = inr (CNumber n_int 1%positive None true)
  /\ isConditionTrue state_double (CNumber n_int 1%positive None true)
     = inl bad_any_cast.
Proof. split; reflexivity. Qed.

(** ** Construction *)

(** C5: the constructor of a BinaryLogicalCondition throws
    [InvalidConditionException] exactly when the child list is empty, and
    returns the condition otherwise; the constructor of NumberCondition<T>
    throws [InvalidConditionException] exactly when the declared type of the
    parameter is none of [int], [short], [double], [float] (a string
    parameter, say), and returns the condition otherwise. *)
Theorem construction_errors :
  (forall (op : BinaryLogicalOperator) (conditions : list Condition),
      (BinaryLogicalCondition op conditions = inl InvalidConditionException
       <-> conditions = [])
      /\ (BinaryLogicalCondition op conditions
          = inr (CBinaryLogical op conditions)
          <-> conditions <> []))
  /\ OrCondition [] = inl InvalidConditionException
  /\ (forall (p : RCP) (s : string) (w : bool),
         NumberCondition n_int (fun _ => mk_any t_string s) p None w
         = inl InvalidConditionException)
  /\ (forall (T : NumberType) (st : ParameterState) (p : RCP)
             (func : option (number T -> number T)) (w : bool),
         (NumberCondition T st p func w = inl InvalidConditionException
          <-> ~ supportedNumberType (typeName (st p)))
         /\ (NumberCondition T st p func w = inr (CNumber T p func w)
             <-> supportedNumberType (typeName (st p)))).
Proof.
  repeat apply conj.
  - intros op [| c cs]; simpl; split; split;
      intros H; try reflexivity; try discriminate H; try congruence.
  - reflexivity.
  - reflexivity.
  - intros T st p func w.
    assert (D : supportedNumberType (typeName (st p))
                \/ ~ supportedNumberType (typeName (st p))).
    { unfold supportedNumberType. destruct (typeName (st p)); auto;
        right; intros [K | [K | [K | K]]]; discriminate K. }
    split; split; intros H.
    + destruct D as [D | D]; [| exact D].
      rewrite (NumberCondition_ok T st p func w D) in H. discriminate H.
    + apply NumberCondition_throw. exact H.
    + destruct D as [D | D]; [exact D |].
      rewrite (NumberCondition_throw T st p func w D) in H. discriminate H.
    + apply NumberCondition_ok. exact H.
Qed.

(** ** BinaryLogicalCondition *)

Lemma reduce_values (f : bool -> bool -> bool) (vs : list bool) (acc : bool) :
  reduce f acc (List.map inr vs) = inr (fold_left f vs acc).
Proof.
  revert acc. induction vs as [| v vs IH]; intros acc; simpl.
  - reflexivity.
  - apply IH.
Qed.

Lemma reduce_inr_inv (f : bool -> bool -> bool) (rest : list (M bool))
    (acc r : bool) :
  reduce f acc rest = inr r -> exists vs, rest = List.map inr vs.
Proof.
  revert acc. induction rest as [| c rest IH]; intros acc H.
  - exists []. reflexivity.
  - simpl in H. destruct c as [e | v]; [discriminate H |]. simpl in H.
    destruct (IH _ H) as [vs ->]. exists (v :: vs). reflexivity.
Qed.

Lemma succeeds_values (st : ParameterState) (cs : list Condition) :
  Forall (fun c => succeeds (isConditionTrue st c)) cs ->
  exists vs, List.map (isConditionTrue st) cs = List.map inr vs.
Proof.
  induction 1 as [| c cs [v Hv] _ [vs IH]].
  - exists []. reflexivity.
  - exists (v :: vs). simpl. rewrite Hv, IH. reflexivity.
Qed.

Lemma map_inr_In (st : ParameterState) (cs : list Condition) (vs : list bool)
    (b : bool) :
  List.map (isConditionTrue st) cs = List.map inr vs ->
  In b vs <-> exists c, In c cs /\ isConditionTrue st c = inr b.
Proof.
  revert vs. induction cs as [| c cs IH]; intros [| v vs] H;
    try discriminate H.
  - simpl. split; [intros [] | intros [c [[] _]]].
  - simpl in H. injection H as Hc Hcs. specialize (IH vs Hcs). simpl. split.
    + intros [-> | Hin].
      * exists c. split; [left; reflexivity | exact Hc].
      * apply IH in Hin. destruct Hin as [x [Hx Hb]].
        exists x. split; [right; exact Hx | exact Hb].
    + intros [x [[-> | Hx] Hb]].
      * left. rewrite Hc in Hb. injection Hb as Hb. exact Hb.
      * right. apply IH. exists x. split; assumption.
Qed.

Lemma fold_left_orb (vs : list bool) (acc : bool) :
  fold_left orb vs acc = true <-> In true (acc :: vs).
Proof.
  revert acc. induction vs as [| v vs IH]; intros acc; simpl.
  - split; [intros ->; left; reflexivity | intros [H | []]; exact H].
  - rewrite IH. simpl. destruct acc, v; simpl; tauto.
Qed.

Lemma fold_left_andb (vs : list bool) (acc : bool) :
  fold_left andb vs acc = true <-> forall b, In b (acc :: vs) -> b = true.
Proof.
  revert acc. induction vs as [| v vs IH]; intros acc; simpl.
  - split; [intros -> b [<- | []]; reflexivity | intros H; apply H; auto].
  - rewrite IH. simpl. split.
    + intros H.
      destruct (andb_prop _ _ (H _ (or_introl eq_refl))) as [Ha Hv].
      intros b [<- | [<- | Hin]]; [exact Ha | exact Hv |].
      apply H. right. exact Hin.
    + intros H b [<- | Hin].
      * rewrite (H acc), (H v) by auto. reflexivity.
      * apply H. auto.
Qed.

Lemma BinaryLogicalCondition_fold (st : ParameterState)
    (op : BinaryLogicalOperator) (c : Condition) (cs : list Condition)
    (v : bool) (vs : list bool) :
  isConditionTrue st c = inr v ->
  List.map (isConditionTrue st) cs = List.map inr vs ->
  isConditionTrue st (CBinaryLogical op (c :: cs))
  = inr (fold_left (applyOperator op) vs v).
Proof.
  intros Hc Hcs. simpl. rewrite Hc, Hcs. simpl. apply reduce_values.
Qed.

Lemma BinaryLogicalCondition_children_succeed (st : ParameterState)
    (op : BinaryLogicalOperator) (cs : list Condition) (r : bool) :
  isConditionTrue st (CBinaryLogical op cs) = inr r ->
  Forall (fun c => succeeds (isConditionTrue st c)) cs.
Proof.
  destruct cs as [| c cs]; simpl; intros H; [discriminate H |].
  destruct (isConditionTrue st c) as [e | v] eqn:Hc; [discriminate H |].
  simpl in H. destruct (reduce_inr_inv _ _ _ _ H) as [vs Hvs].
  constructor; [exists v; exact Hc |].
  clear H. revert vs Hvs. induction cs as [| x cs IH]; intros vs Hvs.
  - constructor.
  - destruct vs as [| b vs]; [discriminate Hvs |].
    simpl in Hvs. injection Hvs as Hx Hcs.
    constructor; [exists b; exact Hx | exact (IH vs Hcs)].
Qed.

Lemma BinaryLogicalCondition_values (st : ParameterState)
    (op : BinaryLogicalOperator) (c : Condition) (cs : list Condition) :
  Forall (fun x => succeeds (isConditionTrue st x)) (c :: cs) ->
  exists v vs,
    isConditionTrue st (CBinaryLogical op (c :: cs))
    = inr (fold_left (applyOperator op) vs v)
    /\ forall b, In b (v :: vs)
                 <-> exists x, In x (c :: cs) /\ isConditionTrue st x = inr b.
Proof.
  intros H.
  destruct (succeeds_values st (c :: cs) H) as [[| v vs] Hvs];
    [discriminate Hvs |].
  exists v, vs. split.
  - simpl in Hvs. injection Hvs as Hc Hcs.
    apply BinaryLogicalCondition_fold; assumption.
  - intros b. apply map_inr_In. exact Hvs.
Qed.

(** C2: over a non-empty child list whose children evaluate to [v :: vs],
    [isConditionTrue()] of a BinaryLogicalCondition is the left-to-right fold of
    [applyOperator] over [vs] from [v].  An OrCondition whose children evaluate
    is true iff some child is true; an AndCondition is true iff every child is
    true; an EqualsCondition over three children is [(v1 == v2) == v3]; with
    one child the result is the child's, whatever [applyOperator] is. *)
Theorem BinaryLogicalCondition_isConditionTrue_spec :
  (forall (st : ParameterState) (op : BinaryLogicalOperator) (c : Condition)
          (cs : list Condition) (v : bool) (vs : list bool),
      isConditionTrue st c = inr v ->
      List.map (isConditionTrue st) cs = List.map inr vs ->
      isConditionTrue st (CBinaryLogical op (c :: cs))
      = inr (fold_left (applyOperator op) vs v))
  /\ (forall op1 op2 : bool,
         applyOperator Or op1 op2 = op1 || op2
         /\ applyOperator And op1 op2 = op1 && op2
         /\ applyOperator Equals op1 op2 = eqb op1 op2)
  /\ (forall (st : ParameterState) (c : Condition) (cs : list Condition),
         Forall (fun x => succeeds (isConditionTrue st x)) (c :: cs) ->
         isConditionTrue st (CBinaryLogical Or (c :: cs)) = inr true
         <-> exists x, In x (c :: cs) /\ isConditionTrue st x = inr true)
  /\ (forall (st : ParameterState) (c : Condition) (cs : list Condition),
         isConditionTrue st (CBinaryLogical And (c :: cs)) = inr true
         <-> forall x, In x (c :: cs) -> isConditionTrue st x = inr true)
  /\ (forall (st : ParameterState) (c1 c2 c3 : Condition) (v1 v2 v3 : bool),
         isConditionTrue st c1 = inr v1 ->
         isConditionTrue st c2 = inr v2 ->
         isConditionTrue st c3 = inr v3 ->
         isConditionTrue st (CBinaryLogical Equals [c1; c2; c3])
         = inr (eqb (eqb v1 v2) v3))
  /\ (forall (st : ParameterState) (op : BinaryLogicalOperator) (c : Condition),
         isConditionTrue st (CBinaryLogical op [c]) = isConditionTrue st c)
  /\ (forall (f : bool -> bool -> bool) (child : M bool),
         BinaryLogicalCondition_isConditionTrue f [child] = child).
Proof.
  repeat apply conj.
  - intros st op c cs v vs. apply BinaryLogicalCondition_fold.
  - intros op1 op2. repeat split.
  - intros st c cs H.
    destruct (BinaryLogicalCondition_values st Or c cs H) as [v [vs [E Hin]]].
    change (applyOperator Or) with orb in E.
    rewrite E, <- Hin, <- fold_left_orb.
    split; intros K; [injection K as K; exact K | rewrite K; reflexivity].
  - intros st c cs. split.
    + intros H.
      pose proof (BinaryLogicalCondition_children_succeed _ _ _ _ H) as Hs.
      destruct (BinaryLogicalCondition_values st And c cs Hs)
        as [v [vs [E Hin]]].
      change (applyOperator And) with andb in E.
      rewrite E in H. injection H as H.
      intros x Hx. rewrite Forall_forall in Hs.
      destruct (Hs x (proj2 (list_elem_of_In _ _) Hx)) as [b Hb].
      rewrite Hb. f_equal.
      apply (proj1 (fold_left_andb vs v) H). apply Hin. exists x. auto.
    + intros H.
      assert (Hs : Forall (fun x => succeeds (isConditionTrue st x)) (c :: cs)).
      { rewrite Forall_forall. intros x Hx. exists true.
        apply H. apply list_elem_of_In. exact Hx. }
      destruct (BinaryLogicalCondition_values st And c cs Hs)
        as [v [vs [E Hin]]].
      change (applyOperator And) with andb in E.
      rewrite E. f_equal. apply fold_left_andb.
      intros b Hb. apply Hin in Hb. destruct Hb as [x [Hx Hb]].
      rewrite (H x Hx) in Hb. injection Hb as Hb. symmetry. exact Hb.
  - intros st c1 c2 c3 v1 v2 v3 H1 H2 H3. simpl.
    rewrite H1, H2, H3. reflexivity.
  - intros st op c. simpl. destruct (isConditionTrue st c); reflexivity.
  - intros f [e | v]; reflexivity.
Qed.

Lemma BinaryLogicalCondition_isConditionTrue_spec_witness :
  isConditionTrue state_flags
    (CBinaryLogical Equals
       [CBool 1%positive true; CBool 1%positive true; CBool 2%positive true])
  = inr (fold_left (applyOperator Equals) [true; false] true).
Proof.
  apply (proj1 BinaryLogicalCondition_isConditionTrue_spec state_flags Equals
           (CBool 1%positive true)
           [CBool 1%positive true; CBool 2%positive true] true [true; false]).
  - reflexivity.
  - reflexivity.
Defined.

(** ** getAllParameters *)

Lemma getAllParameters_refersTo (c : Condition) (p : RCP) :
  p ∈ getAllParameters c <-> refersTo c p.
Proof.
  revert p. induction c as [op cs IH | c IH | pc] using Condition_nested_ind;
    intros p; simpl.
  - rewrite elem_of_union_list. split.
    + intros [X [HX Hp]].
      apply list_elem_of_In, in_map_iff in HX. destruct HX as [c [<- Hc]].
      apply (refersTo_child op cs c p Hc).
      rewrite Forall_forall in IH. apply IH; [| exact Hp].
      apply list_elem_of_In. exact Hc.
    + intros H. inversion H as [| | op' cs' c q Hc Hq]; subst.
      exists (getAllParameters c). split.
      * apply list_elem_of_In, in_map. exact Hc.
      * rewrite Forall_forall in IH. apply IH; [| exact Hq].
        apply list_elem_of_In. exact Hc.
  - rewrite IH. split.
    + apply refersTo_not.
    + intros H. inversion H; subst. assumption.
  - rewrite elem_of_singleton. split.
    + intros ->. constructor.
    + intros H. inversion H; subst. reflexivity.
Qed.

(** C8: [getAllParameters()] holds exactly the parameters reachable through
    the structure of the condition, each of them once; on a ParameterCondition
    it is the singleton of its parameter; on [And(Or(P1,P2), Not(P3))] it is
    [{P1,P2,P3}], also when [P1] occurs a second time in the combinator. *)
Theorem getAllParameters_spec :
  (forall (c : Condition) (p : RCP),
      p ∈ getAllParameters c <-> refersTo c p)
  /\ (forall c : Condition, NoDup (elements (getAllParameters c)))
  /\ (forall pc : ParameterCondition,
         getAllParameters (CParameter pc) = {[ parameterEntry_ pc ]})
  /\ (forall P1 P2 P3 : ParameterCondition,
         getAllParameters
           (CBinaryLogical And
              [CBinaryLogical Or [CParameter P1; CParameter P2];
               CNot (CParameter P3)])
         = {[ parameterEntry_ P1; parameterEntry_ P2; parameterEntry_ P3 ]})
  /\ (forall P1 P2 P3 : ParameterCondition,
         getAllParameters
           (CBinaryLogical And
              [CBinaryLogical Or [CParameter P1; CParameter P2];
               CNot (CParameter P3); CParameter P1])
         = {[ parameterEntry_ P1; parameterEntry_ P2; parameterEntry_ P3 ]})
  /\ length
       (elements
          (getAllParameters
             (CBinaryLogical And
                [CBinaryLogical Or [CBool 1%positive true; CBool 2%positive true];
                 CNot (CBool 3%positive true); CBool 1%positive false])))
     = 3%nat.
Proof.
  repeat apply conj.
  - apply getAllParameters_refersTo.
  - intros c. apply NoDup_elements.
  - reflexivity.
  - intros P1 P2 P3. simpl. apply set_eq. intros x.
    rewrite !elem_of_union, !elem_of_singleton, elem_of_empty. tauto.
  - intros P1 P2 P3. simpl. apply set_eq. intros x.
    rewrite !elem_of_union, !elem_of_singleton, elem_of_empty. tauto.
  - vm_compute. reflexivity.
Qed.

(** ** The dependency converter *)

Lemma findFirstChild_None (x : XMLObject) (tagName : string) :
  findFirstChild x tagName = None
  <-> forall child, In child (getChildren x) -> getTag child <> tagName.
Proof.
  unfold findFirstChild. split.
  - intros H child Hin Htag.
    pose proof (find_none _ _ H child Hin) as K. simpl in K.
    apply String.eqb_neq in K. contradiction.
  - intros H. induction (getChildren x) as [| c l IH]; simpl; [reflexivity |].
    destruct (String.eqb (getTag c) tagName) eqn:E.
    + apply String.eqb_eq in E. exfalso. apply (H c); [left; reflexivity | exact E].
    + apply IH. intros child Hin. apply H. right. exact Hin.
Qed.

(** A loop over the indices of a list visits its elements in order. *)
Lemma fold_left_indices {A B : Type} (f : A -> B -> A) (pre l : list B)
    (init : A) :
  fold_left
    (fun acc i =>
       match nth_error (pre ++ l) i with
       | Some b => f acc b
       | None => acc
       end)
    (seq (length pre) (length l)) init
  = fold_left f l init.
Proof.
  revert pre init. induction l as [| b l IH]; intros pre init.
  - reflexivity.
  - simpl. rewrite nth_error_app2 by lia. rewrite Nat.sub_diag. simpl.
    specialize (IH (pre ++ [b]) (f init b)).
    rewrite <- app_assoc, length_app in IH. simpl in IH.
    rewrite Nat.add_1_r in IH. exact IH.
Qed.

Module DependencyXMLConverterFacts.
Import DependencyXMLConverter.
Section Facts.

Variable Dependency : Type.
Variable getDependeeTagName : string.
Variable getDependentTagName : string.
Variable getParameterIDAttributeName : string.
Variable getParameterEntry : string -> RCP.
Variable convertXML : XMLObject -> gset RCP -> gset RCP -> Dependency.

Let visit :=
  visitChild getDependeeTagName getDependentTagName
    getParameterIDAttributeName getParameterEntry.
Let collect :=
  collectParameters getDependeeTagName getDependentTagName
    getParameterIDAttributeName getParameterEntry.
Let convert :=
  fromXMLtoDependency Dependency getDependeeTagName getDependentTagName
    getParameterIDAttributeName getParameterEntry convertXML.
Let entryOf (child : XMLObject) : RCP :=
  getParameterEntry (getAttribute child getParameterIDAttributeName).

Lemma findFirstChild_hasChildTagged (x : XMLObject) (tagName : string) :
  findFirstChild x tagName <> None <-> hasChildTagged x tagName.
Proof.
  unfold hasChildTagged. split.
  - intros H. destruct (findFirstChild x tagName) as [c |] eqn:E;
      [| contradiction H; reflexivity].
    unfold findFirstChild in E. apply find_some in E. destruct E as [Hin Ht].
    apply String.eqb_eq in Ht. exists c. split; assumption.
  - intros [c [Hin Ht]] H.
    apply (proj1 (findFirstChild_None x tagName) H c Hin Ht).
Qed.

Lemma collectParameters_fold (x : XMLObject) :
  collect x = fold_left visit (getChildren x) (∅, ∅).
Proof.
  unfold collect, collectParameters, numChildren, getChild.
  apply (fold_left_indices visit [] (getChildren x)).
Qed.

(** What the loop has collected after a run over [l]. *)
Lemma fold_visitChild (l : list XMLObject) (ds0 dt0 ds dt : gset RCP) :
  fold_left visit l (ds0, dt0) = (ds, dt) ->
  (forall e, e ∈ ds <->
     e ∈ ds0 \/ exists child, In child l
                 /\ getTag child = getDependeeTagName /\ e = entryOf child)
  /\ (forall e, e ∈ dt <->
        e ∈ dt0 \/ exists child, In child l
                    /\ getTag child = getDependentTagName
                    /\ getTag child <> getDependeeTagName
                    /\ e = entryOf child).
Proof.
  revert ds0 dt0. induction l as [| c l IH]; intros ds0 dt0 H.
  - simpl in H. injection H as <- <-.
    split; intros e; split; auto; intros [K | [child [[] _]]]; exact K.
  - simpl in H.
    destruct (String.eqb (getTag c) getDependeeTagName) eqn:E1;
      [apply String.eqb_eq in E1
      | apply String.eqb_neq in E1;
        destruct (String.eqb (getTag c) getDependentTagName) eqn:E2;
        [apply String.eqb_eq in E2 | apply String.eqb_neq in E2]];
      destruct (IH _ _ H) as [Hds Hdt]; split; intros e;
      rewrite ?Hds, ?Hdt, ?elem_of_union, ?elem_of_singleton; simpl;
      naive_solver.
Qed.

Hypothesis tags_differ : getDependeeTagName <> getDependentTagName.

Lemma collectParameters_namedBy (x : XMLObject) (ds dt : gset RCP) :
  collect x = (ds, dt) ->
  (forall e, e ∈ ds <->
     namedBy getParameterIDAttributeName getParameterEntry x
       getDependeeTagName e)
  /\ (forall e, e ∈ dt <->
        namedBy getParameterIDAttributeName getParameterEntry x
          getDependentTagName e).
Proof.
  intros H. rewrite collectParameters_fold in H.
  destruct (fold_visitChild _ _ _ _ _ H) as [Hds Hdt].
  unfold namedBy. split; intros e.
  - rewrite Hds, elem_of_empty. tauto.
  - rewrite Hdt, elem_of_empty. split.
    + intros [[] | [child [Hin [Ht [_ He]]]]]. exists child. auto.
    + intros [child [Hin [Ht He]]]. right. exists child.
      repeat split; try assumption. rewrite Ht. auto.
Qed.

(** C6, as amended: a fragment without a child that bears the dependee tag
    makes [fromXMLtoDependency] throw [MissingDependeesException]; a
    fragment with such a child and without a child that bears the dependent
    tag makes it throw [MissingDependentsException]; on a fragment with
    children of both kinds it throws neither and passes to [convertXML] the
    sets of the entries named by the children that bear the dependee tag and
    by those that bear the dependent tag. *)
Theorem fromXMLtoDependency_spec (x : XMLObject) :
  (~ hasChildTagged x getDependeeTagName ->
   convert x = inl MissingDependeesException)
  /\ (hasChildTagged x getDependeeTagName ->
      ~ hasChildTagged x getDependentTagName ->
      convert x = inl MissingDependentsException)
  /\ (hasChildTagged x getDependeeTagName ->
      hasChildTagged x getDependentTagName ->
      exists dependees dependents : gset RCP,
        convert x = inr (convertXML x dependees dependents)
        /\ (forall e, e ∈ dependees <->
              namedBy getParameterIDAttributeName getParameterEntry x
                getDependeeTagName e)
        /\ (forall e, e ∈ dependents <->
              namedBy getParameterIDAttributeName getParameterEntry x
                getDependentTagName e)).
Proof.
  unfold convert, fromXMLtoDependency. repeat apply conj.
  - intros H.
    destruct (findFirstChild x getDependeeTagName) eqn:E; [| reflexivity].
    exfalso. apply H, findFirstChild_hasChildTagged. rewrite E. discriminate.
  - intros H1 H2. apply findFirstChild_hasChildTagged in H1.
    destruct (findFirstChild x getDependeeTagName); [| contradiction].
    destruct (findFirstChild x getDependentTagName) eqn:E; [| reflexivity].
    exfalso. apply H2, findFirstChild_hasChildTagged. rewrite E. discriminate.
  - intros H1 H2. apply findFirstChild_hasChildTagged in H1, H2.
    destruct (findFirstChild x getDependeeTagName); [| contradiction].
    destruct (findFirstChild x getDependentTagName); [| contradiction].
    fold collect. destruct (collect x) as [ds dt] eqn:E.
    exists ds, dt. split; [reflexivity |].
    apply collectParameters_namedBy. exact E.
Qed.

End Facts.
End DependencyXMLConverterFacts.

Lemma fromXMLtoDependency_spec_witness :
  exists dependees dependents : gset RCP,
    DependencyXMLConverter.fromXMLtoDependency (gset RCP * gset RCP)
      "Dependee" "Dependent" "parameterId" exampleRegistry examplePair
      exampleDependency
    = inr (examplePair exampleDependency dependees dependents)
    /\ (forall e, e ∈ dependees <->
          DependencyXMLConverter.namedBy "parameterId" exampleRegistry
            exampleDependency "Dependee" e)
    /\ (forall e, e ∈ dependents <->
          DependencyXMLConverter.namedBy "parameterId" exampleRegistry
            exampleDependency "Dependent" e).
Proof.
  apply (proj2 (proj2
    (DependencyXMLConverterFacts.fromXMLtoDependency_spec
       (gset RCP * gset RCP) "Dependee" "Dependent" "parameterId"
       exampleRegistry examplePair ltac:(discriminate) exampleDependency))).
  - exists (mkXMLObject "Dependee" [("parameterId", "p1")] []).
    split; [simpl; auto | reflexivity].
  - exists (mkXMLObject "Dependent" [("parameterId", "p2")] []).
    split; [simpl; auto | reflexivity].
Defined.

(** C6, as stated, fails on a fragment without children: it has no child that
    bears the dependent tag, and [fromXMLtoDependency] throws
    [MissingDependeesException], not [MissingDependentsException]. *)
Lemma fromXMLtoDependency_without_children :
  ~ DependencyXMLConverter.hasChildTagged emptyDependency "Dependent"
  /\ DependencyXMLConverter.fromXMLtoDependency (gset RCP * gset RCP)
       "Dependee" "Dependent" "parameterId" exampleRegistry examplePair
       emptyDependency
     = inl MissingDependeesException
  /\ DependencyXMLConverter.fromXMLtoDependency (gset RCP * gset RCP)
       "Dependee" "Dependent" "parameterId" exampleRegistry examplePair
       emptyDependency
     <> inl MissingDependentsException.
Proof.
  repeat apply conj.
  - intros [child [[] _]].
  - reflexivity.
  - discriminate.
Qed.

(** * Further properties of the conditions *)

(** X1: in any parameter state, [isConditionTrue()] of a NumberCondition<T>
    returns a boolean exactly when the parameter holds a value of type [T];
    when it holds anything else the call throws the failed cast. *)
Theorem NumberCondition_isConditionTrue_succeeds_iff (T : NumberType)
    (st : ParameterState) (p : RCP) (func : option (number T -> number T))
    (w : bool) :
  (succeeds (isConditionTrue st (CNumber T p func w))
   <-> typeName (st p) = typeOf T)
  /\ (isConditionTrue st (CNumber T p func w) = inl bad_any_cast
      <-> typeName (st p) <> typeOf T).
Proof.
  simpl. rewrite ParameterCondition_isConditionTrue_evaluateParameter.
  unfold evaluateParameter, NumberCondition_evaluateParameter. simpl.
  destruct (decide (typeName (st p) = typeOf T)) as [h | n].
  - destruct (st p) as [t c]. simpl in h. subst t.
    rewrite getValue_mk_any. simpl. split; split; intros H.
    + reflexivity.
    + eexists. reflexivity.
    + discriminate H.
    + contradiction H. reflexivity.
  - rewrite (getValue_inl _ _ n). simpl. split; split; intros H.
    + destruct H as [b H]. discriminate H.
    + contradiction.
    + exact n.
    + reflexivity.
Qed.

(** X2: when the parameter holds the value [v] of type [T], the constructor
    of NumberCondition<T> succeeds and [isConditionTrue()] of the condition it
    builds returns whether the transform of [v] is greater than 0, for either
    value of the flag. *)
Theorem NumberCondition_constructed_evaluates (T : NumberType)
    (st : ParameterState) (p : RCP) (func : option (number T -> number T))
    (w : bool) (v : number T) :
  st p = mk_any (typeOf T) v ->
  (let! c := NumberCondition T st p func w in isConditionTrue st c)
  = inr (greaterThanZero T (runFunction func v)).
Proof.
  intros H.
  rewrite NumberCondition_ok.
  - simpl. rewrite ParameterCondition_isConditionTrue_evaluateParameter.
    unfold evaluateParameter. simpl.
    apply NumberCondition_evaluateParameter_value.
    rewrite H. apply getValue_mk_any.
  - rewrite H. simpl. unfold supportedNumberType. destruct T; simpl; auto.
Qed.

Lemma NumberCondition_constructed_evaluates_witness :
  (let! c := NumberCondition n_int state_int_7 2%positive (Some minus_five)
               false in
   isConditionTrue state_int_7 c)
  = inr true.
Proof.
  apply (NumberCondition_constructed_evaluates n_int state_int_7 2%positive
           (Some minus_five) false 7).
  reflexivity.
Defined.

Lemma string_length_append (s t : string) :
  String.length (s ++ t) = (String.length s + String.length t)%nat.
Proof. induction s as [| a s IH]; simpl; [reflexivity | rewrite IH; reflexivity]. Qed.

(** Cancellation of a common suffix. *)
Lemma string_app_inv_tail (s1 s2 t : string) :
  (s1 ++ t)%string = (s2 ++ t)%string -> s1 = s2.
Proof.
  revert s2. induction s1 as [| a s1 IH]; intros s2 H.
  - destruct s2 as [| b s2]; [reflexivity |].
    apply (f_equal String.length) in H.
    rewrite !string_length_append in H. simpl in H. lia.
  - destruct s2 as [| b s2].
    + apply (f_equal String.length) in H.
      rewrite !string_length_append in H. simpl in H. lia.
    + simpl in H. injection H as -> H. f_equal. apply IH. exact H.
Qed.

Lemma NumberCondition_attribute_not_fixed (name fixed : string) :
  (String.length fixed < 15)%nat
  \/ (String.length fixed = 15%nat /\ fixed <> "NumberCondition"%string) ->
  (name ++ "NumberCondition")%string <> fixed.
Proof.
  intros H E. pose proof (f_equal String.length E) as L.
  rewrite string_length_append in L. simpl in L.
  destruct H as [H | [H N]]; [lia |].
  destruct name as [| a name]; [| simpl in L; lia].
  simpl in E. apply N. symmetry. exact E.
Qed.

(** No fixed attribute value ends like the one of a NumberCondition. *)
Ltac number_attribute E :=
  exfalso; revert E; apply NumberCondition_attribute_not_fixed; simpl;
  first [left; lia | right; split; [reflexivity | discriminate]].

(** X3: the type attribute tells the class: two conditions with the same
    [getTypeAttributeValue()] are of the same concrete class (for
    NumberCondition, of the same [T]), provided [TypeNameTraits] names
    different number types differently. *)
Theorem getTypeAttributeValue_determines_class
    (TypeNameTraits_name : NumberType -> string) (c1 c2 : Condition) :
  (forall T1 T2, TypeNameTraits_name T1 = TypeNameTraits_name T2 -> T1 = T2) ->
  getTypeAttributeValue TypeNameTraits_name c1
  = getTypeAttributeValue TypeNameTraits_name c2 ->
  classOf c1 = classOf c2.
Proof.
  intros Hinj.
  destruct c1 as [[| |] cs1 | c1 | [p1 w1 [vs1 | T1 f1 |]]];
    destruct c2 as [[| |] cs2 | c2 | [p2 w2 [vs2 | T2 f2 |]]];
    simpl; intros E; try reflexivity; try discriminate E;
    try (number_attribute E); try (symmetry in E; number_attribute E).
  f_equal. apply Hinj. apply (string_app_inv_tail _ _ _ E).
Qed.

Lemma getTypeAttributeValue_determines_class_witness :
  classOf (CNumber n_int 1%positive None true)
  = classOf (CNumber n_int 2%positive (Some minus_five) false).
Proof.
  apply (getTypeAttributeValue_determines_class exampleTypeName
           (CNumber n_int 1%positive None true)
           (CNumber n_int 2%positive (Some minus_five) false)).
  - intros [] []; simpl; intros H; try reflexivity; discriminate H.
  - reflexivity.
Defined.

(** X4: [ParameterCondition::isConditionTrue] calls [evaluateParameter()]
    exactly once, whatever the flag and whatever the call returns or throws,
    and hands on its outcome; run in the error monad the same program is
    [ParameterCondition_isConditionTrue]. *)
Theorem isConditionTrue_calls_evaluateParameter_once :
  (forall (w : bool) (outcome : M bool) (n : nat),
      ParameterCondition_isConditionTrue_in Counted counted_ret counted_bind
        w (counted_call outcome) n
      = (S n, outcome))
  /\ (forall (st : ParameterState) (pc : ParameterCondition),
         ParameterCondition_isConditionTrue_in M (@ret) (@bind)
           (whenParamEqualsValue_ pc) (evaluateParameter st pc)
         = ParameterCondition_isConditionTrue st pc).
Proof.
  split.
  - intros [|] [e | [|]] n; reflexivity.
  - reflexivity.
Qed.

(** X5: how far [ParameterCondition::isConditionTrue] follows the
    documentation of the constructor: with the flag set it returns the
    documented result; with the flag cleared it returns the negation of the
    documented result; an error of [evaluateParameter()] is passed on either
    way. *)
Theorem isConditionTrue_against_documentation (st : ParameterState)
    (p : RCP) (k : ParameterConditionKind) :
  ParameterCondition_isConditionTrue st (mkParameterCondition p true k)
  = documented_isConditionTrue st (mkParameterCondition p true k)
  /\ ParameterCondition_isConditionTrue st (mkParameterCondition p false k)
     = (let! documented :=
          documented_isConditionTrue st (mkParameterCondition p false k) in
        ret (negb documented)).
Proof.
  rewrite !ParameterCondition_isConditionTrue_evaluateParameter.
  unfold documented_isConditionTrue, evaluateParameter. simpl.
  split.
  - destruct k as [vs | T f |]; simpl;
      match goal with |- ?e = _ => destruct e as [x | [|]] end; reflexivity.
  - destruct k as [vs | T f |]; simpl;
      match goal with |- ?e = _ => destruct e as [x | [|]] end; reflexivity.
Qed.

(** * Further properties of the dependency converter *)

Module DependencyXMLConverterMore.
Import DependencyXMLConverter DependencyXMLConverterFacts.
Section More.

Variable getDependeeTagName : string.
Variable getDependentTagName : string.
Variable getParameterIDAttributeName : string.
Variable getParameterEntry : string -> RCP.
Variable Result : Type.
Variable convertXML : XMLObject -> gset RCP -> gset RCP -> Result.

Let collect :=
  collectParameters getDependeeTagName getDependentTagName
    getParameterIDAttributeName getParameterEntry.
Let read :=
  fromXMLtoDependency Result getDependeeTagName getDependentTagName
    getParameterIDAttributeName getParameterEntry convertXML.
Let isTagged := tagged getDependeeTagName getDependentTagName.

Lemma findFirstChild_tagged (x x' : XMLObject) (tagName : string) :
  (forall child, getTag child = tagName ->
     In child (getChildren x) <-> In child (getChildren x')) ->
  findFirstChild x tagName = None -> findFirstChild x' tagName = None.
Proof.
  intros H N. apply findFirstChild_None. intros child Hin Ht.
  apply (proj1 (findFirstChild_None x tagName) N child); [| exact Ht].
  apply (H child Ht). exact Hin.
Qed.

(** X6: what [fromXMLtoDependency] makes of a fragment depends only on the
    children that bear the dependee or the dependent tag, not on their order,
    their repetition or the other children: two fragments with the same such
    children give the same two sets and fail alike. *)
Theorem fromXMLtoDependency_tagged_children_only (x x' : XMLObject) :
  (forall child, isTagged child ->
     In child (getChildren x) <-> In child (getChildren x')) ->
  collect x = collect x'
  /\ (forall e, read x = inl e <-> read x' = inl e).
Proof.
  intros H.
  assert (Hee : forall child, getTag child = getDependeeTagName ->
                  In child (getChildren x) <-> In child (getChildren x')).
  { intros child Ht. apply H. left. exact Ht. }
  assert (Hent : forall child, getTag child = getDependentTagName ->
                   In child (getChildren x) <-> In child (getChildren x')).
  { intros child Ht. apply H. right. exact Ht. }
  assert (Hc : collect x = collect x').
  { destruct (collect x) as [ds dt] eqn:E. destruct (collect x') as [ds' dt'] eqn:E'.
    unfold collect in E, E'. rewrite collectParameters_fold in E, E'.
    destruct (fold_visitChild Result _ _ _ _ convertXML _ _ _ _ _ E)
      as [Hds Hdt].
    destruct (fold_visitChild Result _ _ _ _ convertXML _ _ _ _ _ E')
      as [Hds' Hdt'].
    f_equal; apply set_eq; intros e.
    - rewrite Hds, Hds'. split; intros [K | [child [Hin [Ht He]]]];
        try (left; exact K); right; exists child;
        (split; [apply (Hee child Ht); exact Hin | split; assumption]).
    - rewrite Hdt, Hdt'. split; intros [K | [child [Hin [Ht He]]]];
        try (left; exact K); right; exists child;
        (split; [apply (Hent child Ht); exact Hin | split; assumption]). }
  split; [exact Hc |].
  assert (Hsym : forall child, isTagged child ->
                   In child (getChildren x') <-> In child (getChildren x)).
  { intros child Ht. symmetry. apply H. exact Ht. }
  assert (F : forall (a b : XMLObject) (tagName : string),
            (forall child, getTag child = tagName ->
               In child (getChildren a) <-> In child (getChildren b)) ->
            (findFirstChild a tagName = None <-> findFirstChild b tagName = None)).
  { intros a b tagName Hab. split; apply findFirstChild_tagged;
      [exact Hab | intros child Ht; symmetry; apply Hab; exact Ht]. }
  pose proof (F x x' getDependeeTagName Hee) as Fee.
  pose proof (F x x' getDependentTagName Hent) as Fent.
  intros e. unfold read, fromXMLtoDependency. fold collect. rewrite <- Hc.
  destruct (findFirstChild x getDependeeTagName) eqn:A;
    destruct (findFirstChild x' getDependeeTagName) eqn:A';
    try (exfalso; destruct Fee as [F1 F2];
         first [discriminate (F1 eq_refl) | discriminate (F2 eq_refl)]);
    [| reflexivity].
  destruct (findFirstChild x getDependentTagName) eqn:B;
    destruct (findFirstChild x' getDependentTagName) eqn:B';
    try (exfalso; destruct Fent as [F1 F2];
         first [discriminate (F1 eq_refl) | discriminate (F2 eq_refl)]);
    [| reflexivity].
  destruct (collect x) as [ds dt]. split; intros K; discriminate K.
Qed.

End More.
End DependencyXMLConverterMore.

Lemma fromXMLtoDependency_tagged_children_only_witness :
  DependencyXMLConverter.collectParameters "Dependee" "Dependent" "parameterId"
    exampleRegistry exampleDependency
  = DependencyXMLConverter.collectParameters "Dependee" "Dependent"
      "parameterId" exampleRegistry exampleShuffled
  /\ (forall e,
        DependencyXMLConverter.fromXMLtoDependency (gset RCP * gset RCP)
          "Dependee" "Dependent" "parameterId" exampleRegistry examplePair
          exampleDependency = inl e
        <-> DependencyXMLConverter.fromXMLtoDependency (gset RCP * gset RCP)
              "Dependee" "Dependent" "parameterId" exampleRegistry examplePair
              exampleShuffled = inl e).
Proof.
  apply (DependencyXMLConverterMore.fromXMLtoDependency_tagged_children_only
           "Dependee" "Dependent" "parameterId" exampleRegistry
           (gset RCP * gset RCP) examplePair exampleDependency exampleShuffled).
  intros child Ht. simpl. split.
  - intros [<- | [<- | []]]; auto.
  - intros [<- | [<- | [<- | [<- | []]]]]; auto.
    destruct Ht as [Ht | Ht]; discriminate Ht.
Defined.

(** * Properties of the Thyra adapter *)

Module ThyraFacts.
Import Thyra.

(** X9: the two conversions of the orientation undo each other: what one
    returns, the other maps back; and each throws [std::logic_error] exactly
    on the values that are none of the two enumerators. *)
Theorem convert_orientation_roundtrip :
  (forall o o', convert_orientation_to_Thyra o = inr o' ->
                convert_orientation_to_Epetra o' = inr o)
  /\ (forall o o', convert_orientation_to_Epetra o' = inr o ->
                   convert_orientation_to_Thyra o = inr o')
  /\ (forall o, convert_orientation_to_Thyra o = inl logic_error
                <-> exists v, o = EME.unnamed_orientation v)
  /\ (forall o', convert_orientation_to_Epetra o' = inl logic_error
                 <-> exists v, o' = MEB.unnamed_orientation v).
Proof.
  repeat apply conj.
  - intros [| | v] o' H; simpl in H; try discriminate H;
      injection H as <-; reflexivity.
  - intros o [| | v] H; simpl in H; try discriminate H;
      injection H as <-; reflexivity.
  - intros [| | v]; simpl; split;
      first [intros [w H]; discriminate H | intros H; discriminate H | eauto].
  - intros [| | v]; simpl; split;
      first [intros [w H]; discriminate H | intros H; discriminate H | eauto].
Qed.

Lemma convert_orientation_roundtrip_witness :
  convert_orientation_to_Epetra MEB.DERIV_TRANS_MV_BY_ROW
  = inr EME.DERIV_TRANS_MV_BY_ROW.
Proof.
  apply (proj1 convert_orientation_roundtrip EME.DERIV_TRANS_MV_BY_ROW
           MEB.DERIV_TRANS_MV_BY_ROW).
  reflexivity.
Defined.

(** X10: the conversion of derivative properties throws [std::logic_error]
    exactly when the linearity or the rank is none of the enumerators;
    otherwise it loses nothing: properties with the same conversion are equal,
    the adjoint flag is kept, and the result holds enumerators only. *)
Theorem convert_DerivativeProperties_spec :
  (forall p, convert_DerivativeProperties p = inl logic_error
             <-> (exists v, EME.linearity p = EME.unnamed_linearity v)
                 \/ (exists v, EME.rank p = EME.unnamed_rank v))
  /\ (forall p1 p2 q, convert_DerivativeProperties p1 = inr q ->
                      convert_DerivativeProperties p2 = inr q -> p1 = p2)
  /\ (forall p q, convert_DerivativeProperties p = inr q ->
                  MEB.supportsAdjoint q = EME.supportsAdjoint p
                  /\ (forall v, MEB.linearity q <> MEB.unnamed_linearity v)
                  /\ (forall v, MEB.rank q <> MEB.unnamed_rank v)).
Proof.
  repeat apply conj.
  - intros [[| | | v] [| | | w] a]; unfold convert_DerivativeProperties; simpl;
      split; intros H; try discriminate H; try reflexivity; eauto;
      destruct H as [[u H] | [u H]]; discriminate H.
  - intros [[| | | v1] [| | | w1] a1] [[| | | v2] [| | | w2] a2] q;
      unfold convert_DerivativeProperties; simpl; intros H1 H2;
      try discriminate H1; try discriminate H2; congruence.
  - intros [[| | | v] [| | | w] a] q; unfold convert_DerivativeProperties;
      simpl; intros H; try discriminate H; injection H as <-; simpl;
      repeat split; intros u; discriminate.
Qed.

Lemma convert_DerivativeProperties_spec_witness :
  EME.mkDerivativeProperties EME.DERIV_LINEARITY_CONST EME.DERIV_RANK_FULL true
  = EME.mkDerivativeProperties EME.DERIV_LINEARITY_CONST EME.DERIV_RANK_FULL
      true.
Proof.
  apply (proj1 (proj2 convert_DerivativeProperties_spec)
           (EME.mkDerivativeProperties EME.DERIV_LINEARITY_CONST
              EME.DERIV_RANK_FULL true)
           (EME.mkDerivativeProperties EME.DERIV_LINEARITY_CONST
              EME.DERIV_RANK_FULL true)
           (MEB.mkDerivativeProperties MEB.DERIV_LINEARITY_CONST
              MEB.DERIV_RANK_FULL true));
    reflexivity.
Defined.

Section EvaluatorFacts.

Variable Epetra_Map : Type.
Variable VectorSpaceBase : Type.
Variable EpetraExt_ModelEvaluator : Type.
Variable LinearOpWithSolveFactoryBase : Type.
Variable LinearOpWithSolveBase : Type.
Variable FancyOStream : Type.
Variable get_x_map : EpetraExt_ModelEvaluator -> RefCountPtr Epetra_Map.
Variable get_f_map : EpetraExt_ModelEvaluator -> RefCountPtr Epetra_Map.
Variable get_p_map : EpetraExt_ModelEvaluator -> Z -> RefCountPtr Epetra_Map.
Variable get_g_map : EpetraExt_ModelEvaluator -> Z -> RefCountPtr Epetra_Map.
Variable InArgs_Np : EpetraExt_ModelEvaluator -> nat.
Variable OutArgs_Ng : EpetraExt_ModelEvaluator -> nat.
Variable create_MPIVectorSpaceBase :
  RefCountPtr Epetra_Map -> RefCountPtr VectorSpaceBase.
Variable setOStream :
  LinearOpWithSolveFactoryBase -> RefCountPtr FancyOStream ->
  LinearOpWithSolveFactoryBase.
Variable createOp :
  LinearOpWithSolveFactoryBase -> RefCountPtr LinearOpWithSolveBase.

Let Evaluator :=
  EpetraModelEvaluator Epetra_Map VectorSpaceBase EpetraExt_ModelEvaluator
    LinearOpWithSolveFactoryBase FancyOStream.
Let init :=
  initialize Epetra_Map VectorSpaceBase EpetraExt_ModelEvaluator
    LinearOpWithSolveFactoryBase FancyOStream get_x_map get_f_map get_p_map
    get_g_map InArgs_Np OutArgs_Ng create_MPIVectorSpaceBase.
Let uninit :=
  uninitialize Epetra_Map VectorSpaceBase EpetraExt_ModelEvaluator
    LinearOpWithSolveFactoryBase FancyOStream setOStream.
Let createW :=
  create_W Epetra_Map VectorSpaceBase EpetraExt_ModelEvaluator
    LinearOpWithSolveFactoryBase LinearOpWithSolveBase FancyOStream
    setOStream createOp.

(** The entry of a list that was filled index by index. *)
Lemma nth_filled {A : Type} (F : nat -> option A) (n k : nat) :
  (k < n)%nat -> nth k (List.map F (seq 0 n)) None = F k.
Proof.
  intros H. rewrite (nth_indep _ None (F 0%nat)).
  - rewrite (map_nth F). rewrite seq_nth by exact H. reflexivity.
  - rewrite length_map, length_seq. exact H.
Qed.

Lemma initialize_counts (this : Evaluator)
    (epetraModel : EpetraExt_ModelEvaluator)
    (W_factory : RefCountPtr LinearOpWithSolveFactoryBase) :
  Np _ _ _ _ _ (init this epetraModel W_factory)
  = Z.of_nat (InArgs_Np epetraModel)
  /\ Ng _ _ _ _ _ (init this epetraModel W_factory)
     = Z.of_nat (OutArgs_Ng epetraModel).
Proof.
  unfold Np, Ng, init, initialize. simpl.
  rewrite !length_map, !length_seq. split; reflexivity.
Qed.

(** X11: after [initialize], [Np()] and [Ng()] are the argument counts of
    the EpetraExt model, and [get_p_space(l)] returns the space made of the
    [l]-th parameter map of the model when [0 <= l < Np()] and throws
    [std::logic_error] for every other [l]; likewise [get_g_space]. *)
Theorem initialize_spaces (this : Evaluator)
    (epetraModel : EpetraExt_ModelEvaluator)
    (W_factory : RefCountPtr LinearOpWithSolveFactoryBase) (l : Z) :
  let e := init this epetraModel W_factory in
  Np _ _ _ _ _ e = Z.of_nat (InArgs_Np epetraModel)
  /\ Ng _ _ _ _ _ e = Z.of_nat (OutArgs_Ng epetraModel)
  /\ get_p_space _ _ _ _ _ e l
     = (if (0 <=? l) && (l <? Z.of_nat (InArgs_Np epetraModel))
        then inr (create_MPIVectorSpaceBase (get_p_map epetraModel l))
        else inl logic_error)
  /\ get_g_space _ _ _ _ _ e l
     = (if (0 <=? l) && (l <? Z.of_nat (OutArgs_Ng epetraModel))
        then inr (create_MPIVectorSpaceBase (get_g_map epetraModel l))
        else inl logic_error).
Proof.
  destruct (initialize_counts this epetraModel W_factory) as [HNp HNg].
  simpl. repeat apply conj; [exact HNp | exact HNg | |].
  - unfold get_p_space. rewrite HNp.
    destruct ((0 <=? l) && (l <? Z.of_nat (InArgs_Np epetraModel))) eqn:B;
      [| reflexivity].
    simpl. f_equal. apply andb_prop in B. destruct B as [B1 B2].
    apply Z.leb_le in B1. apply Z.ltb_lt in B2.
    unfold init, initialize. simpl. rewrite map_map.
    rewrite (nth_filled
               (fun k => create_MPIVectorSpaceBase
                           (get_p_map epetraModel (Z.of_nat k)))) by lia.
    rewrite Z2Nat.id by exact B1. reflexivity.
  - unfold get_g_space. rewrite HNg.
    destruct ((0 <=? l) && (l <? Z.of_nat (OutArgs_Ng epetraModel))) eqn:B;
      [| reflexivity].
    simpl. f_equal. apply andb_prop in B. destruct B as [B1 B2].
    apply Z.leb_le in B1. apply Z.ltb_lt in B2.
    unfold init, initialize. simpl. rewrite map_map.
    rewrite (nth_filled
               (fun k => create_MPIVectorSpaceBase
                           (get_g_map epetraModel (Z.of_nat k)))) by lia.
    rewrite Z2Nat.id by exact B1. reflexivity.
Qed.

(** X12: [uninitialize] after [initialize] hands back the model and the
    factory that [initialize] was given (nothing through a null pointer) and
    leaves the evaluator without model and without factory, so that
    [create_W] throws [std::logic_error]; it never sets the stream of the
    factory, and it leaves the maps and spaces in place: [Np()], [Ng()],
    [get_p_space] and [get_g_space] answer as before. *)
Theorem uninitialize_after_initialize (this : Evaluator)
    (epetraModel : EpetraExt_ModelEvaluator)
    (W_factory : RefCountPtr LinearOpWithSolveFactoryBase)
    (place1 : RefCountPtr EpetraExt_ModelEvaluator)
    (place2 : RefCountPtr LinearOpWithSolveFactoryBase) (l : Z) :
  let e := init this epetraModel W_factory in
  let e' := fst (fst (uninit e (Some place1) (Some place2))) in
  uninit e (Some place1) (Some place2)
  = (e', Some (Some epetraModel), Some W_factory)
  /\ uninit e None None = (e', None, None)
  /\ getEpetraModel _ _ _ _ _ e' = None
  /\ W_factory_ _ _ _ _ _ e' = None
  /\ createW e' = inl logic_error
  /\ Np _ _ _ _ _ e' = Z.of_nat (InArgs_Np epetraModel)
  /\ Ng _ _ _ _ _ e' = Z.of_nat (OutArgs_Ng epetraModel)
  /\ get_p_space _ _ _ _ _ e' l = get_p_space _ _ _ _ _ e l
  /\ get_g_space _ _ _ _ _ e' l = get_g_space _ _ _ _ _ e l.
Proof.
  simpl. repeat apply conj; try reflexivity.
  - apply (initialize_counts this epetraModel W_factory).
  - apply (initialize_counts this epetraModel W_factory).
Qed.

End EvaluatorFacts.

End ThyraFacts.
